(** * A shallow embedding of [qa-agent.py] (Help_website_QnA_bot)

    The program crawls a help website from a seed URL, extracts a text
    chunk per page and asks a language model questions over the chunks.
    This file embeds the crawler ([DocumentProcessor]) and the question
    answering front end ([QAAgent]) and proves what the specification
    claims about them.

    Collaborators are modelled as follows.
    - [urllib.parse.urlsplit]/[urlparse]/[urljoin]: executable models of
      the CPython 3.12 functions, restricted to what the program uses.
    - [requests.get]: a web, i.e. a function from URL to either a raised
      exception or a response (status code and the document tree that
      [BeautifulSoup(response.text, 'html.parser')] builds).
    - BeautifulSoup: an HTML tree with the operations the program calls
      ([select], [decompose], [select_one], [title], [string],
      [stripped_strings], [find_all]).
    - The Anthropic client: a function from prompt to either an exception
      or the text of the first content block.
    - The module logger: a list of log lines threaded through the state. *)

From Stdlib Require Import String Ascii List Bool Arith Lia DecimalString.
Import ListNotations.
Open Scope list_scope.
Open Scope string_scope.

(** ** Python values *)

(** Exceptions the program can observe. *)
Inductive exn :=
| ValueError (msg : string)
| HTTPError (status : nat)
| RequestException (msg : string)
| APIError (msg : string).

(** [str(e)] *)
Definition str_exn (e : exn) : string :=
  match e with
  | ValueError m => m
  | HTTPError _ => "HTTP error"
  | RequestException m => m
  | APIError m => m
  end.

(** A computation that returns a value or raises. *)
Inductive result (A : Type) :=
| Ok (a : A)
| Err (e : exn).
Arguments Ok {A} a.
Arguments Err {A} e.

(** ** String helpers (Python [str] methods on ASCII strings) *)

Definition char_in (c : ascii) (cs : string) : bool :=
  existsb (Ascii.eqb c) (list_ascii_of_string cs).

(** [sub in s] *)
Fixpoint contains (sub s : string) : bool :=
  String.prefix sub s ||
  match s with
  | EmptyString => false
  | String _ s' => contains sub s'
  end.

(** [s.split(c, 1)] when [c in s]: the parts before and after the first [c]. *)
Fixpoint split_first (c : ascii) (s : string) : option (string * string) :=
  match s with
  | EmptyString => None
  | String d s' =>
      if Ascii.eqb c d then Some (EmptyString, s')
      else match split_first c s' with
           | Some (a, b) => Some (String d a, b)
           | None => None
           end
  end.

(** Longest prefix with no character satisfying [p], and the rest. *)
Fixpoint span_until (p : ascii -> bool) (s : string) : string * string :=
  match s with
  | EmptyString => (EmptyString, EmptyString)
  | String d s' =>
      if p d then (EmptyString, s)
      else let (a, b) := span_until p s' in (String d a, b)
  end.

Fixpoint filter_string (p : ascii -> bool) (s : string) : string :=
  match s with
  | EmptyString => EmptyString
  | String d s' => if p d then String d (filter_string p s') else filter_string p s'
  end.

Fixpoint lstrip_by (p : ascii -> bool) (s : string) : string :=
  match s with
  | EmptyString => EmptyString
  | String d s' => if p d then lstrip_by p s' else s
  end.

Fixpoint string_rev (s : string) : string :=
  match s with
  | EmptyString => EmptyString
  | String d s' => string_rev s' ++ String d EmptyString
  end.

Definition rstrip_by (p : ascii -> bool) (s : string) : string :=
  string_rev (lstrip_by p (string_rev s)).

Definition is_ascii_alpha (c : ascii) : bool :=
  let n := nat_of_ascii c in
  (((65 <=? n) && (n <=? 90)) || ((97 <=? n) && (n <=? 122)))%nat.

Definition is_ascii_digit (c : ascii) : bool :=
  let n := nat_of_ascii c in ((48 <=? n) && (n <=? 57))%nat.

Definition lower_char (c : ascii) : ascii :=
  let n := nat_of_ascii c in
  if ((65 <=? n) && (n <=? 90))%nat then ascii_of_nat (n + 32) else c.

Fixpoint lower (s : string) : string :=
  match s with
  | EmptyString => EmptyString
  | String d s' => String (lower_char d) (lower s')
  end.

(** Characters removed by [str.strip()] (ASCII part of [str.isspace]). *)
Definition py_isspace (c : ascii) : bool :=
  let n := nat_of_ascii c in
  (((9 <=? n) && (n <=? 13)) || ((28 <=? n) && (n <=? 32)))%nat.

Definition strip (s : string) : string :=
  rstrip_by py_isspace (lstrip_by py_isspace s).

(** [' '.join(xs)] *)
Fixpoint join_space (xs : list string) : string :=
  match xs with
  | [] => EmptyString
  | [x] => x
  | x :: xs' => x ++ " " ++ join_space xs'
  end.

(** [s.split()] on whitespace, empty parts dropped. *)
Fixpoint split_ws_aux (s : string) (cur : string) : list string :=
  match s with
  | EmptyString => if String.eqb cur "" then [] else [string_rev cur]
  | String d s' =>
      if py_isspace d then
        app (if String.eqb cur "" then [] else [string_rev cur]) (split_ws_aux s' "")
      else split_ws_aux s' (String d cur)
  end.
Definition split_ws (s : string) : list string := split_ws_aux s "".

Definition mem (x : string) (xs : list string) : bool := existsb (String.eqb x) xs.

(** ** [urllib.parse] *)

Record SplitResult := mkSplit {
  scheme : string;
  netloc : string;
  path : string;
  query : string;
  fragment : string
}.

Definition is_scheme_char (c : ascii) : bool :=
  is_ascii_alpha c || is_ascii_digit c || char_in c "+-.".

(** [_WHATWG_C0_CONTROL_OR_SPACE]: code points 0 to 32. *)
Definition is_c0_or_space (c : ascii) : bool := (nat_of_ascii c <=? 32)%nat.

(** [_UNSAFE_URL_BYTES_TO_REMOVE]: tab, CR, LF. *)
Definition is_unsafe_byte (c : ascii) : bool :=
  let n := nat_of_ascii c in ((n =? 9) || (n =? 10) || (n =? 13))%nat.

(** Fragment, then query, split off the part after the network location. *)
Definition split_rest (sch net rest : string) : SplitResult :=
  let '(rest, frag) :=
    match split_first "#" rest with Some (a, b) => (a, b) | None => (rest, "") end in
  let '(p, q) :=
    match split_first "?" rest with Some (a, b) => (a, b) | None => (rest, "") end in
  mkSplit sch net p q frag.

(** [urlsplit(url, default_scheme)] of CPython 3.12.  The validation of a
    bracketed host ([_check_bracketed_netloc]) and the NFKC check of the
    network location ([_checknetloc]), which only raise on further
    malformed inputs, are not modelled. *)
Definition urlsplit_with (url default_scheme : string) : result SplitResult :=
  let url := lstrip_by is_c0_or_space (filter_string (fun c => negb (is_unsafe_byte c)) url) in
  let '(sch, url) :=
    match split_first ":" url with
    | Some (pre, post) =>
        match pre with
        | String c0 _ =>
            if is_ascii_alpha c0 && forallb is_scheme_char (list_ascii_of_string pre)
            then (lower pre, post) else (default_scheme, url)
        | EmptyString => (default_scheme, url)
        end
    | None => (default_scheme, url)
    end in
  if String.prefix "//" url then
    let '(net, rest) := span_until (fun c => char_in c "/?#") (substring 2 (String.length url - 2)%nat url) in
    if xorb (char_in "[" net) (char_in "]" net)
    then Err (ValueError "Invalid IPv6 URL")
    else Ok (split_rest sch net rest)
  else Ok (split_rest sch "" url).

Definition urlsplit (url : string) : result SplitResult := urlsplit_with url "".

(** [urlparse] differs from [urlsplit] only by splitting [;params] off the
    path; the program only reads [netloc], which that does not touch. *)
Definition urlparse (url : string) : result SplitResult := urlsplit url.

Definition uses_netloc : list string := [""; "http"; "https"; "ftp"; "file"; "ws"; "wss"].

(** [urlunsplit] *)
Definition urlunsplit (r : SplitResult) : string :=
  let u := path r in
  let u :=
    if negb (String.eqb (netloc r) "") ||
       (mem (scheme r) uses_netloc && negb (String.prefix "//" u))
    then
      let u := if negb (String.eqb u "") && negb (String.prefix "/" u) then "/" ++ u else u in
      "//" ++ netloc r ++ u
    else u in
  let u := if String.eqb (scheme r) "" then u else scheme r ++ ":" ++ u in
  let u := if String.eqb (query r) "" then u else u ++ "?" ++ query r in
  if String.eqb (fragment r) "" then u else u ++ "#" ++ fragment r.

(** Directory part of a base path: everything up to its last ['/']
    ([base_parts] without its last segment). *)
Definition base_dir (bpath : string) : string :=
  if String.eqb bpath "" then "/"
  else string_rev (snd (span_until (fun c => Ascii.eqb c "/") (string_rev bpath))).

(** [urljoin(base, url)].  Resolution of ["."] and [".."] segments and the
    collapsing of empty segments are not modelled. *)
Definition urljoin (base url : string) : result string :=
  if String.eqb base "" then Ok url
  else if String.eqb url "" then Ok base
  else
    match urlsplit base with
    | Err e => Err e
    | Ok b =>
      match urlsplit_with url (scheme b) with
      | Err e => Err e
      | Ok u =>
        if negb (String.eqb (scheme u) (scheme b)) || negb (mem (scheme u) uses_netloc)
        then Ok url
        else if negb (String.eqb (netloc u) "") then Ok (urlunsplit u)
        else if String.eqb (path u) "" then
          Ok (urlunsplit (mkSplit (scheme u) (netloc b) (path b)
                (if String.eqb (query u) "" then query b else query u) (fragment u)))
        else
          let p := if String.prefix "/" (path u) then path u else base_dir (path b) ++ path u in
          Ok (urlunsplit (mkSplit (scheme u) (netloc b) p (query u) (fragment u)))
      end
    end.

(** ** [DocumentProcessor.is_valid_url] *)

Definition excluded_exts : list string := [".png"; ".jpg"; ".css"; ".js"].

(** The [try] turns an exception of [urlparse] into [False]; [any] over the
    extension list cannot raise. *)
Definition is_valid_url (base_url url : string) : bool :=
  match urlparse url with
  | Err _ => false
  | Ok parsed =>
    match urlparse base_url with
    | Err _ => false
    | Ok base_parsed =>
        String.eqb (netloc parsed) (netloc base_parsed) &&
        negb (existsb (fun ext => contains ext url) excluded_exts)
    end
  end.

(** ** The parsed page ([BeautifulSoup(text, 'html.parser')])

    Tag names are lower case, as [html.parser] produces them.  A comment is
    a [NavigableString] subclass: [.string] returns it, [stripped_strings]
    skips it. *)
#[local] Set Warnings "-register-all".
Inductive node :=
| Text (s : string)
| Comment (s : string)
| Elem (tag : string) (attrs : list (string * string)) (children : list node).

(** Induction over a tree, with the hypothesis on every child. *)
Section NodeInd.
Variable P : node -> Prop.
Hypothesis P_Text : forall s, P (Text s).
Hypothesis P_Comment : forall s, P (Comment s).
Hypothesis P_Elem : forall t a kids, Forall P kids -> P (Elem t a kids).
Fixpoint node_ind' (n : node) : P n :=
  match n with
  | Text s => P_Text s
  | Comment s => P_Comment s
  | Elem t a kids =>
      P_Elem t a kids
        ((fix go (l : list node) : Forall P l :=
            match l with
            | [] => Forall_nil P
            | k :: r => Forall_cons k (node_ind' k) (go r)
            end) kids)
  end.
End NodeInd.

(** [tag[k]]: on a duplicated attribute the later value replaces the
    earlier one. *)
Fixpoint get_attr (k : string) (attrs : list (string * string)) : option string :=
  match attrs with
  | [] => None
  | (k', v) :: rest =>
      match get_attr k rest with
      | Some v' => Some v'
      | None => if String.eqb k k' then Some v else None
      end
  end.

(** [class] is a multi-valued attribute: a class selector matches one of
    its whitespace separated tokens. *)
Definition has_class (c : string) (attrs : list (string * string)) : bool :=
  match get_attr "class" attrs with
  | Some v => mem c (split_ws v)
  | None => false
  end.

(** [soup.select('nav, header, footer, script, style')] *)
Definition is_stripped_tag (t : string) : bool :=
  mem t ["nav"; "header"; "footer"; "script"; "style"].

(** [for elem in soup.select('nav, header, footer, script, style'):
    elem.decompose()]: every matched element leaves the tree with its
    subtree (an element nested in a removed one goes with it). *)
Fixpoint decompose_node (n : node) : list node :=
  match n with
  | Elem t a kids =>
      if is_stripped_tag t then [] else [Elem t a (flat_map decompose_node kids)]
  | _ => [n]
  end.

Definition decompose_stripped (ns : list node) : list node := flat_map decompose_node ns.

(** The first [Some] of a list. *)
Fixpoint first_some {A} (xs : list (option A)) : option A :=
  match xs with
  | [] => None
  | Some x :: _ => Some x
  | None :: rest => first_some rest
  end.

(** [select_one]: the first element, in document order, that matches. *)
Fixpoint select_node (p : string -> list (string * string) -> bool) (n : node)
  : option node :=
  match n with
  | Elem t a kids =>
      if p t a then Some n else first_some (map (select_node p) kids)
  | _ => None
  end.

Definition select_one (p : string -> list (string * string) -> bool) (ns : list node)
  : option node :=
  first_some (map (select_node p) ns).

(** Selector list ['main, article, .content, .documentation']. *)
Definition is_content_region (t : string) (a : list (string * string)) : bool :=
  String.eqb t "main" || String.eqb t "article" ||
  has_class "content" a || has_class "documentation" a.

Definition has_tag (name : string) (t : string) (_ : list (string * string)) : bool :=
  String.eqb t name.

(** [Tag.string]: the only child if it is a string, recursively the only
    child's [.string] if it is a tag, [None] for zero or several children. *)
Fixpoint tag_string (n : node) : option string :=
  match n with
  | Text s => Some s
  | Comment s => Some s
  | Elem _ _ [k] => tag_string k
  | Elem _ _ _ => None
  end.

(** The [NavigableString] descendants of a node, in document order
    (comments excluded). *)
Fixpoint node_strings (n : node) : list string :=
  match n with
  | Text s => [s]
  | Comment _ => []
  | Elem _ _ kids => flat_map node_strings kids
  end.

Definition all_strings (ns : list node) : list string := flat_map node_strings ns.

(** [stripped_strings]: each string stripped, empty ones skipped. *)
Definition stripped_strings (ns : list node) : list string :=
  filter (fun s => negb (String.eqb s "")) (map strip (all_strings ns)).

Definition children_of (n : node) : list node :=
  match n with Elem _ _ kids => kids | _ => [] end.

(** [soup.find_all('a', href=True)], mapped to [link['href']]. *)
Fixpoint node_hrefs (n : node) : list string :=
  match n with
  | Elem t a kids =>
      app (if String.eqb t "a" then
             match get_attr "href" a with Some h => [h] | None => [] end
           else [])
          (flat_map node_hrefs kids)
  | _ => []
  end.

Definition find_all_hrefs (ns : list node) : list string := flat_map node_hrefs ns.

(** ** [DocumentChunk] *)

(** [title] holds Python's [None] as [None]. *)
Record DocumentChunk := mkChunk {
  content : string;
  url : string;
  title : option string
}.

(** ** [DocumentProcessor.extract_content]

    [decompose] mutates the soup: the function returns the soup as it is
    left, which [crawl_page] goes on to read links from. *)
Definition extract_content (soup : list node) (page_url : string)
  : list node * option DocumentChunk :=
  let soup := decompose_stripped soup in
  let main_content :=
    match select_one is_content_region soup with
    | Some m => Some m
    | None => select_one (has_tag "body") soup
    end in
  match main_content with
  | None => (soup, None)
  | Some m =>
      let ttl := match select_one (has_tag "title") soup with
                 | Some t => tag_string t
                 | None => Some page_url
                 end in
      let body := join_space (stripped_strings (children_of m)) in
      (soup, Some (mkChunk body page_url ttl))
  end.

Definition nl : string := String (ascii_of_nat 10) EmptyString.

(** ** [requests.get] and [raise_for_status] *)

Record Response := mkResponse {
  status_code : nat;
  page : list node
}.

(** One crawl run sees the web as a function: [requests.get(url)] raises
    (connection error, timeout, malformed URL) or returns a response. *)
Definition Web := string -> result Response.

(** [Response.raise_for_status] raises for 4xx and 5xx codes only. *)
Definition raise_for_status (r : Response) : option exn :=
  if ((400 <=? status_code r) && (status_code r <? 600))%nat then Some (HTTPError (status_code r))
  else None.

(** ** Crawl state *)

Record DocumentProcessor := mkProcessor {
  base_url : string;
  visited_urls : list string;
  chunks : list DocumentChunk
}.

(** [DocumentProcessor(base_url)] *)
Definition new_processor (u : string) : DocumentProcessor := mkProcessor u [] [].

(** Effects outside the processor: every HTTP GET issued, with whether it
    got through [raise_for_status], and the log lines. *)
Record World := mkWorld {
  requests_made : list (string * bool);
  log_lines : list string
}.

Definition log_line (msg : string) (w : World) : World :=
  mkWorld (requests_made w) (app (log_lines w) [msg]).

Definition record_get (u : string) (ok : bool) (w : World) : World :=
  mkWorld (app (requests_made w) [(u, ok)]) (log_lines w).

(** [self.visited_urls.add(u)] *)
Definition add_visited (u : string) (p : DocumentProcessor) : DocumentProcessor :=
  mkProcessor (base_url p)
    (if mem u (visited_urls p) then visited_urls p else app (visited_urls p) [u])
    (chunks p).

(** [self.chunks.append(c)] *)
Definition add_chunk (c : DocumentChunk) (p : DocumentProcessor) : DocumentProcessor :=
  mkProcessor (base_url p) (visited_urls p) (app (chunks p) [c]).

Definition crawl_error (u : string) (e : exn) : string :=
  "Error crawling " ++ u ++ ": " ++ str_exn e.

(** ** [DocumentProcessor.crawl_page]

    The recursion over links has no bound in the source; [fuel] bounds the
    depth of the model, [None] standing for a run that has not finished. *)
Section Crawl.

Variable web : Web.

Definition CState : Type := DocumentProcessor * World.

(** The [for link in soup.find_all('a', href=True)] loop of the page at
    [page_url].  Each nested [crawl_page] call catches its own exceptions;
    an exception of [urljoin] leaves the loop and reaches the [except] of
    the page being crawled, which logs it. *)
Definition crawl_links (crawl : string -> CState -> option CState) (page_url : string)
  : list string -> CState -> option CState :=
  fix go hrefs st :=
    match hrefs with
    | [] => Some st
    | h :: hs =>
        match urljoin page_url h with
        | Err e => Some (fst st, log_line (crawl_error page_url e) (snd st))
        | Ok next_url =>
            match crawl next_url st with
            | None => None
            | Some st' => go hs st'
            end
        end
    end.

(** The body of the [try] up to the link loop, once [raise_for_status]
    has passed: mark [u] visited, parse, extract and store the chunk. *)
Definition record_page (u : string) (resp : Response) (st : CState) : list node * CState :=
  let (p, w) := st in
  let p := add_visited u p in
  let w := record_get u true w in
  let (soup, chunk) := extract_content (page resp) u in
  let p := match chunk with Some c => add_chunk c p | None => p end in
  (soup, (p, w)).

Fixpoint crawl_page (fuel : nat) (u : string) (st : CState) {struct fuel} : option CState :=
  match fuel with
  | O => None
  | S fuel' =>
    let (p, w) := st in
    if mem u (visited_urls p) || negb (is_valid_url (base_url p) u) then Some st
    else
      match web u with
      | Err e => Some (p, log_line (crawl_error u e) (record_get u false w))
      | Ok resp =>
          match raise_for_status resp with
          | Some e => Some (p, log_line (crawl_error u e) (record_get u false w))
          | None =>
              let (soup, st') := record_page u resp (p, w) in
              crawl_links (crawl_page fuel') u (find_all_hrefs soup) st'
          end
      end
  end.

(** [process_documentation]: the crawl of [base_url] runs as the one task
    of a thread pool whose [with] block waits for it; the future, which
    would hold an exception of the task, is discarded.  [crawl_page] catches
    its own exceptions, so nothing reaches the caller. *)
Definition process_documentation (fuel : nat) (st : CState) : option CState :=
  crawl_page fuel (base_url (fst st)) st.

End Crawl.

(** ** [QAAgent] *)

Record QAAgent := mkAgent {
  processor : option DocumentProcessor
}.

(** [self.client.messages.create(...)] followed by [response.content[0].text]:
    the text of the answer, or the exception raised on the way. *)
Definition Client := string -> result string.

Definition nat_to_string (n : nat) : string := NilEmpty.string_of_uint (Nat.to_uint n).

(** [QAAgent.initialize_with_url].  The processor is stored before the
    crawl, and the crawl mutates it in place.  Its [except] branch logs and
    re-raises what [process_documentation] raises, which is nothing: the
    model has no [Err] to pass on. *)
Definition initialize_with_url (web : Web) (fuel : nat) (a : QAAgent) (w : World) (u : string)
  : option (result unit * QAAgent * World) :=
  let p := new_processor u in
  let w := log_line ("Starting documentation processing for " ++ u) w in
  match process_documentation web fuel (p, w) with
  | None => None
  | Some (p', w') =>
      Some (Ok tt, mkAgent (Some p'),
            log_line ("Processed " ++ nat_to_string (length (chunks p')) ++ " documentation chunks") w')
  end.

(** [str(None)] is ["None"]. *)
Definition py_str_opt (o : option string) : string :=
  match o with Some s => s | None => "None" end.

Definition format_chunk (c : DocumentChunk) : string :=
  "Source: " ++ url c ++ nl ++ "Title: " ++ py_str_opt (title c) ++ nl ++
  "Content: " ++ content c ++ nl ++ nl.

(** [QAAgent.format_context] *)
Definition format_context (a : QAAgent) : string :=
  match processor a with
  | None => ""
  | Some p =>
      match chunks p with
      | [] => ""
      | cs => "Here is the relevant documentation:" ++ nl ++ nl ++
              fold_left (fun acc c => acc ++ format_chunk c) cs ""
      end
  end.

Definition indent : string := "            ".

Definition build_prompt (context question : string) : string :=
  "You are a helpful documentation assistant. Based on the provided documentation, " ++ nl ++
  indent ++ "answer the following question. If the information is not available in the documentation, " ++ nl ++
  indent ++ "clearly state that. Include relevant source URLs in your answer." ++ nl ++ nl ++
  indent ++ "Documentation Context:" ++ nl ++
  indent ++ context ++ nl ++ nl ++
  indent ++ "Question: " ++ question ++ nl ++ nl ++
  indent ++ "Please provide a clear and concise answer based solely on the documentation provided above.".

Definition not_initialized_msg : string :=
  "Error: Documentation not initialized. Please provide a help website URL first.".

(** [QAAgent.answer_question]: the answer, and the agent and world after it. *)
Definition answer_question (client : Client) (a : QAAgent) (w : World) (question : string)
  : string * QAAgent * World :=
  match processor a with
  | None => (not_initialized_msg, a, w)
  | Some _ =>
      match client (build_prompt (format_context a) question) with
      | Ok text => (text, a, w)
      | Err e =>
          ("Error generating answer: " ++ str_exn e, a,
           log_line ("Error generating answer: " ++ str_exn e) w)
      end
  end.

(** ** [main]

    Standard output as the list of texts written to it: [print(x)] writes
    [x] and a newline, [input(p)] writes its prompt [p].  The log goes to
    standard error and is not part of it.  [--url] is taken as already
    parsed.  The hard-coded key is not empty, so the [if not api_key]
    branch is never taken. *)

Definition input_prompt : string := nl ++ "Enter your question (or 'quit' to exit): ".

(** [input()] at the end of standard input raises [EOFError], whose text
    is "EOF when reading a line"; [except Exception] prints it. *)
Definition eof_error_line : string := "Error: EOF when reading a line" ++ nl.

(** [print("\nAnswer:", answer)] *)
Definition answer_line (answer : string) : string := nl ++ "Answer: " ++ answer ++ nl.

(** The [while True] loop, reading the remaining lines of standard input. *)
Fixpoint qa_loop (client : Client) (a : QAAgent) (w : World) (inputs : list string)
  (out : list string) : list string * World :=
  match inputs with
  | [] => (app out [input_prompt; eof_error_line], w)
  | question :: rest =>
      let out := app out [input_prompt] in
      if String.eqb (lower question) "quit" then (out, w)
      else
        let '(answer, a', w') := answer_question client a w question in
        qa_loop client a' w' rest (app out [answer_line answer])
  end.


(** ** Predicates used to state the specification *)

(** [s.endswith(suf)] *)
Definition ends_with (suf s : string) : bool :=
  String.prefix (string_rev suf) (string_rev s).

(** No GET issued twice in a trace of requests. *)
Definition fetched_once (t : list (string * bool)) : Prop := NoDup (map fst t).

(** No GET of a URL after a GET of it that succeeded. *)
Fixpoint no_refetch_after_success (t : list (string * bool)) : bool :=
  match t with
  | [] => true
  | (v, ok) :: rest =>
      (negb ok || negb (mem v (map fst rest))) && no_refetch_after_success rest
  end.

(** Some GET of [u] in the trace succeeded. *)
Definition succeeded_before (u : string) (t : list (string * bool)) : bool :=
  existsb (fun '(v, ok) => ok && String.eqb v u) t.

(** The state of a fresh [DocumentProcessor] for [seed], with a clean log. *)
Definition fresh (seed : string) : CState := (new_processor seed, mkWorld [] []).

(** ** Concrete pages and webs *)

Definition seed_P : string := "https://h.com/docs/p".

(** A page whose two links both lead to a missing page. *)
Definition page_two_links_to_gone : list node :=
  [Elem "html" [] [Elem "body" [] [Elem "main" []
     [Text "Start"; Elem "a" [("href", "/docs/gone")] [Text "one"];
      Elem "a" [("href", "/docs/gone")] [Text "two"]]]]].

Definition web_gone : Web := fun u =>
  if String.eqb u seed_P then Ok (mkResponse 200 page_two_links_to_gone)
  else if String.eqb u "https://h.com/docs/gone" then Ok (mkResponse 404 [])
  else Err (RequestException "unreachable").

(** A seed page with an empty content region, linking to a page served
    with status 304. *)
Definition page_empty_body : list node :=
  [Elem "html" [] [Elem "body" [] [Elem "a" [("href", "/docs/old")] []]]].

Definition page_cached : list node :=
  [Elem "html" [] [Elem "body" [] [Elem "main" [] [Text "cached"]]]].

Definition web_empty : Web := fun u =>
  if String.eqb u seed_P then Ok (mkResponse 200 page_empty_body)
  else if String.eqb u "https://h.com/docs/old" then Ok (mkResponse 304 page_cached)
  else Err (RequestException "unreachable").

(** The state a crawl of [web_gone] from [seed_P] ends in. *)
Definition C2_run_result : CState :=
  match process_documentation web_gone 5 (fresh seed_P) with
  | Some st => st
  | None => fresh seed_P
  end.

(** The end-to-end scenario of the specification: [seed_P] links to a
    same-host page, to an image on another host and to a stylesheet. *)
Definition page_scenario_P : list node :=
  [Elem "html" [] [Elem "head" [] [Elem "title" [] [Text "Page P"]; Elem "style" [] [Text "main{}"]];
   Elem "body" []
     [Elem "nav" [] [Elem "a" [("href", "/nav")] [Text "Nav"]];
      Elem "header" [] [Text "Header"];
      Elem "main" [] [Text " A "; Elem "b" [] [Text "B"]; Elem "a" [("href", "/docs/q")] []];
      Elem "a" [("href", "https://cdn.example.com/logo.png")] [];
      Elem "a" [("href", "/style.css")] [];
      Elem "footer" [] [Text "Footer"];
      Elem "script" [] [Text "track()"]]]].

Definition page_scenario_Q : list node :=
  [Elem "html" [] [Elem "body" [] [Elem "main" [] [Text "Q text"]; Elem "a" [("href", "p")] []]]].

Definition web_scenario : Web := fun u =>
  if String.eqb u seed_P then Ok (mkResponse 200 page_scenario_P)
  else if String.eqb u "https://h.com/docs/q" then Ok (mkResponse 200 page_scenario_Q)
  else Err (RequestException "unreachable").

Definition C3_run_result : CState :=
  match process_documentation web_scenario 10 (fresh seed_P) with
  | Some st => st
  | None => fresh seed_P
  end.

(** A web where nothing is reachable. *)
Definition web_down : Web := fun _ => Err (RequestException "Connection refused").

(** The tags of all elements of a subtree. *)
Fixpoint node_tags (n : node) : list string :=
  match n with
  | Elem t _ kids => t :: flat_map node_tags kids
  | _ => []
  end.

Definition has_element (t : string) (doc : list node) : bool :=
  mem t (flat_map node_tags doc).

(** A page with every stripped element and a [main] holding "A" and "B",
    where an [article] comes before [main]. *)
Definition page_article_first : list node :=
  [Elem "html" [] [Elem "head" [] [Elem "title" [] [Text "Guide"]; Elem "style" [] [Text "p{}"]];
   Elem "body" []
     [Elem "header" [] [Text "Header"];
      Elem "nav" [] [Text "Menu"];
      Elem "article" [] [Text "Intro"];
      Elem "main" [] [Text "A"; Elem "em" [] [Text "B"]];
      Elem "footer" [] [Text "Footer"];
      Elem "script" [] [Text "track()"]]]].

(** A page whose [title] element is empty. *)
Definition page_empty_title : list node :=
  [Elem "html" [] [Elem "head" [] [Elem "title" [] []];
                   Elem "body" [] [Elem "main" [] [Text "x"]]]].

(** A seed page whose first link cannot be parsed, followed by a link to
    a reachable same-host page. *)
Definition page_bad_link_first : list node :=
  [Elem "html" [] [Elem "body" [] [Elem "main" []
     [Text "Start"; Elem "a" [("href", "http://[bad/")] [Text "bad"];
      Elem "a" [("href", "/docs/q")] [Text "q"]]]]].

Definition web_bad_link : Web := fun u =>
  if String.eqb u seed_P then Ok (mkResponse 200 page_bad_link_first)
  else if String.eqb u "https://h.com/docs/q" then Ok (mkResponse 200 page_scenario_Q)
  else Err (RequestException "unreachable").

(** [''.join(xs)] *)
Fixpoint concat_all (xs : list string) : string :=
  match xs with
  | [] => ""
  | x :: rest => x ++ concat_all rest
  end.

(** The text [answer_question] returns for [question]. *)
Definition answer_text (client : Client) (a : QAAgent) (question : string) : string :=
  fst (fst (answer_question client a (mkWorld [] []) question)).

(** What the loop writes for one question that is not [quit]. *)
Definition question_block (client : Client) (a : QAAgent) (question : string) : list string :=
  [input_prompt; answer_line (answer_text client a question)].



(** A seed that its own filter refuses (it contains ".js"). *)
Definition seed_json : string := "https://h.com/api.json".

(** * Properties *)

(** ** The URL model on sample inputs *)

Example urlsplit_ex1 :
  urlsplit "https://docs.example.com/a/b?x=1#top"
  = Ok (mkSplit "https" "docs.example.com" "/a/b" "x=1" "top").
Proof. reflexivity. Qed.
Example urljoin_ex1 : urljoin "https://h.com/docs/p" "q" = Ok "https://h.com/docs/q".
Proof. reflexivity. Qed.
Example urljoin_ex2 : urljoin "https://h.com/docs/p" "/style.css" = Ok "https://h.com/style.css".
Proof. reflexivity. Qed.
Example urljoin_ex3 :
  urljoin "https://h.com/docs/p" "https://cdn.example.com/logo.png" = Ok "https://cdn.example.com/logo.png".
Proof. reflexivity. Qed.
Example urljoin_ex4 : urljoin "https://h.com/docs/p" "//o.com/x" = Ok "https://o.com/x".
Proof. reflexivity. Qed.
Example urljoin_ex5 : urljoin "https://h.com/docs/p" "#sec" = Ok "https://h.com/docs/p#sec".
Proof. reflexivity. Qed.
Example is_valid_ex1 : is_valid_url "https://h.com/" "https://h.com/docs/q" = true.
Proof. reflexivity. Qed.
Example is_valid_ex2 : is_valid_url "https://h.com/" "https://h.com/style.css" = false.
Proof. reflexivity. Qed.
Example urlsplit_ex2 : urlsplit "http://[bad/x" = Err (ValueError "Invalid IPv6 URL").
Proof. reflexivity. Qed.

(** ** Basic facts about the string helpers *)

Lemma prefix_refl : forall s, String.prefix s s = true.
Proof.
  induction s as [|c s IH]; simpl; [reflexivity|].
  destruct (ascii_dec c c) as [_|n]; [exact IH | contradiction n; reflexivity].
Qed.

Lemma contains_app_r : forall sub pre, contains sub (pre ++ sub) = true.
Proof.
  intros sub pre. induction pre as [|c pre IH]; simpl.
  - destruct sub as [|c s]; [reflexivity|]. cbn [contains]. rewrite prefix_refl. reflexivity.
  - cbn [contains]. rewrite IH. apply orb_true_r.
Qed.

Lemma mem_In : forall x xs, mem x xs = true <-> In x xs.
Proof.
  intros x xs. unfold mem. rewrite existsb_exists. split.
  - intros [y [Hy Heq]]. apply String.eqb_eq in Heq. subst. exact Hy.
  - intros H. exists x. split; [exact H | apply String.eqb_refl].
Qed.

Lemma mem_false_not_In : forall x xs, mem x xs = false -> ~ In x xs.
Proof. intros x xs H Hin. apply mem_In in Hin. congruence. Qed.

(** ** A generic invariant of a crawl

    A relation between states that holds along every step [crawl_page]
    takes (logging, a failed GET, a recorded page) holds between the state
    before and after any [crawl_page] call. *)
Section Preserve.

Variable web : Web.
Variable R : CState -> CState -> Prop.
Hypothesis R_refl : forall st, R st st.
Hypothesis R_trans : forall a b c, R a b -> R b c -> R a c.
Hypothesis R_log : forall p w m, R (p, w) (p, log_line m w).
Hypothesis R_fail : forall p w u,
  mem u (visited_urls p) = false -> is_valid_url (base_url p) u = true ->
  R (p, w) (p, record_get u false w).
Hypothesis R_page : forall p w u resp,
  web u = Ok resp -> raise_for_status resp = None ->
  mem u (visited_urls p) = false -> is_valid_url (base_url p) u = true ->
  R (p, w) (snd (record_page u resp (p, w))).

Lemma crawl_links_R : forall (crawl : string -> CState -> option CState) page_url,
  (forall u st st', crawl u st = Some st' -> R st st') ->
  forall hrefs st st', crawl_links crawl page_url hrefs st = Some st' -> R st st'.
Proof.
  intros crawl page_url Hcrawl hrefs. induction hrefs as [|h hs IH]; intros st st' H; simpl in H.
  - injection H as <-. apply R_refl.
  - destruct (urljoin page_url h) as [nu|e].
    + destruct (crawl nu st) as [st1|] eqn:E; [|discriminate].
      apply R_trans with st1; [exact (Hcrawl _ _ _ E) | exact (IH _ _ H)].
    + injection H as <-. destruct st as [p w]. apply R_log.
Qed.

Lemma crawl_page_R : forall fuel u st st', crawl_page web fuel u st = Some st' -> R st st'.
Proof.
  induction fuel as [|fuel IH]; intros u [p w] st' H; cbn [crawl_page] in H; [discriminate|].
  destruct (mem u (visited_urls p)) eqn:Hv; cbn [orb] in H.
  { injection H as <-. apply R_refl. }
  destruct (is_valid_url (base_url p) u) eqn:Hval; cbn [negb] in H.
  2:{ injection H as <-. apply R_refl. }
  destruct (web u) as [resp|e] eqn:Hw.
  - destruct (raise_for_status resp) as [e|] eqn:Hr.
    + injection H as <-.
      apply R_trans with (p, record_get u false w); [apply R_fail; assumption | apply R_log].
    + destruct (record_page u resp (p, w)) as [soup st1] eqn:Hrp.
      apply R_trans with st1.
      * replace st1 with (snd (record_page u resp (p, w))) by (rewrite Hrp; reflexivity).
        apply R_page; assumption.
      * exact (crawl_links_R _ _ IH _ _ _ H).
  - injection H as <-.
    apply R_trans with (p, record_get u false w); [apply R_fail; assumption | apply R_log].
Qed.

End Preserve.

(** Requests and log lines are only ever appended. *)
Definition extends (st st' : CState) : Prop :=
  (exists l, requests_made (snd st') = app (requests_made (snd st)) l) /\
  (exists l, log_lines (snd st') = app (log_lines (snd st)) l) /\
  base_url (fst st') = base_url (fst st) /\
  (exists l, visited_urls (fst st') = app (visited_urls (fst st)) l).

Lemma record_page_fst_base : forall u resp p w,
  base_url (fst (snd (record_page u resp (p, w)))) = base_url p.
Proof.
  intros u resp p w. unfold record_page.
  destruct (extract_content (page resp) u) as [soup [c|]]; reflexivity.
Qed.

Lemma extends_refl : forall st, extends st st.
Proof. intros [p w]. repeat split; exists []; rewrite app_nil_r; reflexivity. Qed.

Lemma extends_trans : forall a b c, extends a b -> extends b c -> extends a c.
Proof.
  intros a b c (Hr1 & Hl1 & Hb1 & Hv1) (Hr2 & Hl2 & Hb2 & Hv2).
  destruct Hr1 as [l1 E1], Hr2 as [l2 E2], Hl1 as [m1 F1], Hl2 as [m2 F2],
           Hv1 as [n1 G1], Hv2 as [n2 G2].
  repeat split.
  - exists (app l1 l2). rewrite E2, E1, app_assoc. reflexivity.
  - exists (app m1 m2). rewrite F2, F1, app_assoc. reflexivity.
  - congruence.
  - exists (app n1 n2). rewrite G2, G1, app_assoc. reflexivity.
Qed.

Lemma extends_log : forall p w m, extends (p, w) (p, log_line m w).
Proof.
  intros p w m. repeat split; [exists [] | exists [m] | exists []];
    simpl; rewrite ?app_nil_r; reflexivity.
Qed.

Lemma crawl_page_extends : forall web fuel u st st',
  crawl_page web fuel u st = Some st' -> extends st st'.
Proof.
  intros web. apply crawl_page_R.
  - exact extends_refl.
  - exact extends_trans.
  - exact extends_log.
  - intros p w u _ _. repeat split; [exists [(u, false)] | exists [] | exists []];
      simpl; rewrite ?app_nil_r; reflexivity.
  - intros p w u resp _ _ Hv _. unfold record_page, add_visited. rewrite Hv.
    destruct (extract_content (page resp) u) as [soup [c|]]; simpl;
      repeat split; try (exists [(u, true)]; reflexivity);
      try (exists []; rewrite app_nil_r; reflexivity); exists [u]; reflexivity.
Qed.

Lemma crawl_links_extends : forall web fuel page_url hrefs st st',
  crawl_links (crawl_page web fuel) page_url hrefs st = Some st' -> extends st st'.
Proof.
  intros web fuel page_url.
  apply (crawl_links_R extends extends_refl extends_trans extends_log).
  apply crawl_page_extends.
Qed.

(** ** C1: the admissibility filter *)

Lemma is_valid_url_iff : forall base u,
  is_valid_url base u = true <->
  exists pu pb, urlparse u = Ok pu /\ urlparse base = Ok pb /\ netloc pu = netloc pb /\
    forall ext, In ext excluded_exts -> contains ext u = false.
Proof.
  intros base u. unfold is_valid_url. split.
  - destruct (urlparse u) as [pu|e]; [|discriminate].
    destruct (urlparse base) as [pb|e]; [|discriminate].
    intros H. apply andb_true_iff in H as [Hn He].
    exists pu, pb. repeat split; [apply String.eqb_eq; exact Hn|].
    intros ext Hin. apply negb_true_iff in He.
    destruct (contains ext u) eqn:Hc; [|reflexivity].
    assert (existsb (fun ext => contains ext u) excluded_exts = true) as Hx
      by (apply existsb_exists; exists ext; split; assumption).
    congruence.
  - intros (pu & pb & Hu & Hb & Hn & He). rewrite Hu, Hb.
    apply andb_true_iff. split; [apply String.eqb_eq; exact Hn|].
    apply negb_true_iff. destruct (existsb (fun ext => contains ext u) excluded_exts) eqn:Hx;
      [|reflexivity].
    apply existsb_exists in Hx as [ext [Hin Hc]]. rewrite (He ext Hin) in Hc. discriminate.
Qed.

(** A URL passing the filter and not yet visited is fetched: the next GET
    recorded is for it. *)
Lemma crawl_page_fetches : forall web fuel u p w st',
  is_valid_url (base_url p) u = true -> mem u (visited_urls p) = false ->
  crawl_page web (S fuel) u (p, w) = Some st' ->
  exists ok rest, requests_made (snd st') = app (requests_made w) ((u, ok) :: rest).
Proof.
  intros web fuel u p w st' Hval Hv H. cbn [crawl_page] in H.
  rewrite Hv, Hval in H. cbn [orb negb] in H.
  destruct (web u) as [resp|e].
  - destruct (raise_for_status resp) as [e|].
    + injection H as <-. exists false, []. reflexivity.
    + destruct (record_page u resp (p, w)) as [soup st1] eqn:Hrp.
      apply crawl_links_extends in H. destruct H as [[l E] _].
      assert (requests_made (snd st1) = app (requests_made w) [(u, true)]) as E1.
      { unfold record_page in Hrp. destruct (extract_content (page resp) u) as [s0 [c|]];
          injection Hrp as _ <-; reflexivity. }
      exists true, l. rewrite E, E1, <- app_assoc. reflexivity.
  - injection H as <-. exists false, []. reflexivity.
Qed.

(** C1 (amended).  [is_valid_url] holds exactly when [urlparse] accepts the
    URL and the seed, their network locations are equal, and the URL
    string contains none of [.png], [.jpg], [.css], [.js] anywhere (not
    only at the end of its path).  [crawl_page] returns at once, fetching
    nothing, on a URL that fails it, and fetches a URL that passes it and
    is not visited yet. *)
Theorem C1_admissibility_filter : forall web fuel u p w,
  (is_valid_url (base_url p) u = true <->
     exists pu pb, urlparse u = Ok pu /\ urlparse (base_url p) = Ok pb /\
       netloc pu = netloc pb /\ forall ext, In ext excluded_exts -> contains ext u = false) /\
  (is_valid_url (base_url p) u = false -> crawl_page web (S fuel) u (p, w) = Some (p, w)) /\
  (is_valid_url (base_url p) u = true -> mem u (visited_urls p) = false ->
     forall st', crawl_page web (S fuel) u (p, w) = Some st' ->
     exists ok rest, requests_made (snd st') = app (requests_made w) ((u, ok) :: rest)).
Proof.
  intros web fuel u p w. split; [apply is_valid_url_iff|split].
  - intros H. cbn [crawl_page]. rewrite H. rewrite orb_true_r. reflexivity.
  - intros Hval Hv st' H. exact (crawl_page_fetches web fuel u p w st' Hval Hv H).
Qed.

Lemma C1_witness :
  is_valid_url "https://docs.example.com/" "https://cdn.example.com/logo.png" = false /\
  crawl_page (fun _ => Err (RequestException "unreachable")) 1
    "https://cdn.example.com/logo.png" (fresh "https://docs.example.com/")
  = Some (fresh "https://docs.example.com/").
Proof.
  split; [reflexivity|].
  apply (proj1 (proj2 (C1_admissibility_filter (fun _ => Err (RequestException "unreachable")) 0
    "https://cdn.example.com/logo.png" (new_processor "https://docs.example.com/") (mkWorld [] [])))).
  reflexivity.
Defined.

(** C1 as stated fails: a same-host URL whose path does not end in an
    excluded extension is refused when [.js] occurs inside it. *)
Lemma C1_counterexample : ~ (forall base u pu pb,
  urlparse u = Ok pu -> urlparse base = Ok pb -> netloc pu = netloc pb ->
  (forall ext, In ext excluded_exts -> ends_with ext (path pu) = false) ->
  is_valid_url base u = true).
Proof.
  intros H.
  specialize (H "https://docs.example.com/" "https://docs.example.com/api.json"
    (mkSplit "https" "docs.example.com" "/api.json" "" "")
    (mkSplit "https" "docs.example.com" "/" "" "") eq_refl eq_refl eq_refl).
  assert (is_valid_url "https://docs.example.com/" "https://docs.example.com/api.json" = false)
    as Hf by reflexivity.
  rewrite H in Hf; [discriminate|].
  intros ext [<-|[<-|[<-|[<-|[]]]]]; reflexivity.
Qed.

(** ** C2: how often a URL is fetched *)

Lemma mem_snoc : forall v l u, mem v (app l [u]) = mem v l || String.eqb v u.
Proof.
  intros v l u. unfold mem. rewrite existsb_app. simpl. rewrite orb_false_r. reflexivity.
Qed.

Lemma no_refetch_snoc : forall t u b,
  no_refetch_after_success (app t [(u, b)]) =
  no_refetch_after_success t && negb (succeeded_before u t).
Proof.
  induction t as [|[v ok] r IH]; intros u b; simpl.
  - rewrite orb_true_r. reflexivity.
  - rewrite map_app. simpl. rewrite mem_snoc, IH.
    destruct ok, (mem v (map fst r)), (String.eqb v u), (no_refetch_after_success r),
      (succeeded_before u r); reflexivity.
Qed.

Lemma succeeded_before_In : forall u t, succeeded_before u t = true <-> In (u, true) t.
Proof.
  intros u t. unfold succeeded_before. rewrite existsb_exists. split.
  - intros [[v ok] [Hin H]]. apply andb_true_iff in H as [Ho Hv].
    apply String.eqb_eq in Hv. subst. exact Hin.
  - intros Hin. exists (u, true). split; [exact Hin|]. simpl. apply String.eqb_refl.
Qed.

(** The invariant behind C2: visited URLs are exactly those with a
    successful GET, and no GET follows a successful one of the same URL. *)
Definition dedup_inv (st : CState) : Prop :=
  no_refetch_after_success (requests_made (snd st)) = true /\
  (forall v, In v (visited_urls (fst st)) <-> In (v, true) (requests_made (snd st))).

Lemma crawl_page_dedup_inv : forall web fuel u st st',
  crawl_page web fuel u st = Some st' -> dedup_inv st -> dedup_inv st'.
Proof.
  intros web. apply (crawl_page_R web (fun s s' => dedup_inv s -> dedup_inv s')).
  - auto.
  - auto.
  - intros p w m H. exact H.
  - intros p w u Hv _ [Hnr Hiff]. cbn [fst snd] in Hnr, Hiff.
    unfold dedup_inv; cbn [fst snd record_get requests_made].
    assert (succeeded_before u (requests_made w) = false) as Hs.
    { destruct (succeeded_before u (requests_made w)) eqn:E; [|reflexivity].
      apply succeeded_before_In, Hiff in E. apply mem_false_not_In in Hv. contradiction. }
    rewrite no_refetch_snoc, Hnr, Hs. split; [reflexivity|].
    intros v. rewrite Hiff, in_app_iff. simpl. split; [tauto|].
    intros [H|[H|[]]]; [exact H | discriminate].
  - intros p w u resp _ _ Hv _ [Hnr Hiff]. cbn [fst snd] in Hnr, Hiff.
    assert (succeeded_before u (requests_made w) = false) as Hs.
    { destruct (succeeded_before u (requests_made w)) eqn:E; [|reflexivity].
      apply succeeded_before_In, Hiff in E. apply mem_false_not_In in Hv. contradiction. }
    unfold record_page, add_visited. rewrite Hv.
    destruct (extract_content (page resp) u) as [soup [c|]];
      unfold dedup_inv; simpl; rewrite no_refetch_snoc, Hnr, Hs;
      (split; [reflexivity|]); intros v; rewrite !in_app_iff, Hiff; simpl;
      split; intros [H|[H|[]]]; first [left; exact H | right; left; congruence].
Qed.

(** C2 (amended).  A crawl run issues a GET for a URL again only while no
    earlier GET of it has succeeded: once a fetch passes
    [raise_for_status], the URL is in [visited_urls] and never fetched
    again.  The visited set is exactly the set of URLs with a successful
    GET. *)
Theorem C2_no_refetch_after_success : forall web fuel seed st',
  process_documentation web fuel (fresh seed) = Some st' ->
  no_refetch_after_success (requests_made (snd st')) = true /\
  (forall v, In v (visited_urls (fst st')) <-> In (v, true) (requests_made (snd st'))).
Proof.
  intros web fuel seed st' H. apply (crawl_page_dedup_inv web fuel seed (fresh seed)).
  - exact H.
  - split; [reflexivity|]. intros v; simpl; tauto.
Qed.

Lemma C2_witness :
  process_documentation web_gone 5 (fresh seed_P)
    = Some (fst (C2_run_result), snd (C2_run_result)) /\
  no_refetch_after_success (requests_made (snd C2_run_result)) = true.
Proof.
  split; [reflexivity|].
  exact (proj1 (C2_no_refetch_after_success web_gone 5 seed_P C2_run_result eq_refl)).
Defined.

(** C2 as stated fails: a URL linked twice whose fetch fails (HTTP 404) is
    fetched twice. *)
Lemma C2_counterexample : exists st',
  process_documentation web_gone 5 (fresh seed_P) = Some st' /\
  requests_made (snd st') =
    [(seed_P, true); ("https://h.com/docs/gone", false); ("https://h.com/docs/gone", false)] /\
  ~ fetched_once (requests_made (snd st')).
Proof.
  eexists. split; [reflexivity|]. split; [reflexivity|].
  unfold fetched_once. simpl. intros Hnd.
  inversion Hnd as [|x l Hnin Hnd2]. inversion Hnd2 as [|y l2 Hnin2 _].
  apply Hnin2. left. reflexivity.
Qed.

(** ** C3: which pages give a record *)

Lemma extract_content_url : forall doc u c,
  snd (extract_content doc u) = Some c -> url c = u.
Proof.
  intros doc u c. unfold extract_content.
  destruct (match select_one is_content_region (decompose_stripped doc) with
            | Some m => Some m
            | None => select_one (has_tag "body") (decompose_stripped doc)
            end) as [m|]; simpl; [|discriminate].
  intros H. injection H as <-. reflexivity.
Qed.

(** Every stored record comes from a successful GET of its URL and is what
    [extract_content] makes of that page. *)
Definition records_inv (web : Web) (st : CState) : Prop :=
  forall c, In c (chunks (fst st)) ->
    In (url c, true) (requests_made (snd st)) /\
    exists resp, web (url c) = Ok resp /\ raise_for_status resp = None /\
      snd (extract_content (page resp) (url c)) = Some c.

Lemma crawl_page_records_inv : forall web fuel u st st',
  crawl_page web fuel u st = Some st' -> records_inv web st -> records_inv web st'.
Proof.
  intros web. apply (crawl_page_R web (fun s s' => records_inv web s -> records_inv web s')).
  - auto.
  - auto.
  - intros p w m H. exact H.
  - intros p w u _ _ H c Hc. destruct (H c Hc) as [Hin Hex]. split; [|exact Hex].
    simpl. apply in_app_iff. left. exact Hin.
  - intros p w u resp Hw Hr _ _ H. unfold record_page.
    destruct (extract_content (page resp) u) as [soup [c0|]] eqn:He; intros c Hc; simpl in Hc |- *.
    + apply in_app_iff in Hc as [Hc|[<-|[]]].
      * destruct (H c Hc) as [Hin Hex]. split; [apply in_app_iff; left; exact Hin | exact Hex].
      * assert (url c0 = u) as Hu by (apply (extract_content_url (page resp)); rewrite He; reflexivity).
        rewrite Hu. split; [apply in_app_iff; right; left; reflexivity|].
        exists resp. rewrite He. repeat split; assumption.
    + destruct (H c Hc) as [Hin Hex]. split; [apply in_app_iff; left; exact Hin | exact Hex].
Qed.

(** C3 (amended).  After a crawl run every stored record belongs to a URL
    whose GET returned without raising and passed [raise_for_status]
    (status outside 400..599), and is the chunk [extract_content] builds
    from that page, which requires a content region
    ([main], [article], [.content], [.documentation], else [body]); the
    record's text may be empty. *)
Theorem C3_records_from_fetched_pages : forall web fuel seed st',
  process_documentation web fuel (fresh seed) = Some st' ->
  forall c, In c (chunks (fst st')) ->
    In (url c, true) (requests_made (snd st')) /\
    exists resp, web (url c) = Ok resp /\ raise_for_status resp = None /\
      snd (extract_content (page resp) (url c)) = Some c.
Proof.
  intros web fuel seed st' H.
  apply (crawl_page_records_inv web fuel seed (fresh seed) st' H).
  intros c [].
Qed.

Lemma C3_witness :
  In (url (mkChunk "A B" seed_P (Some "Page P")), true)
     (requests_made (snd C3_run_result)) /\
  exists resp, web_scenario seed_P = Ok resp /\ raise_for_status resp = None /\
    snd (extract_content (page resp) seed_P) = Some (mkChunk "A B" seed_P (Some "Page P")).
Proof.
  apply (C3_records_from_fetched_pages web_scenario 10 seed_P C3_run_result eq_refl).
  vm_compute. left. reflexivity.
Defined.

(** C3 as stated fails: a record with an empty text is stored, and a page
    served with status 304 also gives a record. *)
Lemma C3_counterexample : exists st',
  process_documentation web_empty 5 (fresh seed_P) = Some st' /\
  chunks (fst st') =
    [mkChunk "" seed_P (Some seed_P);
     mkChunk "cached" "https://h.com/docs/old" (Some "https://h.com/docs/old")] /\
  web_empty "https://h.com/docs/old" = Ok (mkResponse 304 page_cached).
Proof. eexists. split; [reflexivity|]. split; reflexivity. Qed.

(** ** C4: a failing seed during initialisation *)

Lemma initialize_with_url_ok : forall web fuel a w seed r,
  initialize_with_url web fuel a w seed = Some r -> fst (fst r) = Ok tt.
Proof.
  intros web fuel a w seed r. unfold initialize_with_url.
  destruct (process_documentation web fuel _) as [[p' w']|]; [|discriminate].
  intros H. injection H as <-. reflexivity.
Qed.

Definition start_msg (seed : string) : string :=
  "Starting documentation processing for " ++ seed.

(** C4 (amended).  [initialize_with_url] never raises a crawl failure.
    When the GET of the seed raises or is refused by [raise_for_status],
    [crawl_page] logs [Error crawling <seed>: <e>] and returns; the
    initialisation completes normally with the processor set, nothing
    visited and no record. *)
Theorem C4_seed_failure_is_swallowed : forall web fuel a w seed e,
  (forall r, initialize_with_url web fuel a w seed = Some r -> fst (fst r) = Ok tt) /\
  (is_valid_url seed seed = true ->
   (web seed = Err e \/ exists resp, web seed = Ok resp /\ raise_for_status resp = Some e) ->
   initialize_with_url web (S fuel) a w seed =
     Some (Ok tt, mkAgent (Some (new_processor seed)),
           log_line "Processed 0 documentation chunks"
             (log_line (crawl_error seed e)
                (record_get seed false (log_line (start_msg seed) w))))).
Proof.
  intros web fuel a w seed e. split; [apply initialize_with_url_ok|].
  intros Hval Hfail. unfold initialize_with_url, process_documentation, mem.
  cbn [crawl_page fst base_url visited_urls new_processor existsb orb]. rewrite Hval.
  cbn [negb orb].
  destruct Hfail as [He|[resp [Hw Hr]]].
  - rewrite He. reflexivity.
  - rewrite Hw, Hr. reflexivity.
Qed.

Lemma C4_witness :
  initialize_with_url web_down 3 (mkAgent None) (mkWorld [] []) seed_P =
    Some (Ok tt, mkAgent (Some (new_processor seed_P)),
          log_line "Processed 0 documentation chunks"
            (log_line (crawl_error seed_P (RequestException "Connection refused"))
               (record_get seed_P false (log_line (start_msg seed_P) (mkWorld [] []))))).
Proof.
  apply (proj2 (C4_seed_failure_is_swallowed web_down 2 (mkAgent None) (mkWorld [] []) seed_P
                  (RequestException "Connection refused"))).
  - reflexivity.
  - left. reflexivity.
Defined.

(** C4 as stated fails: with the seed unreachable, [initialize_with_url]
    returns normally instead of re-raising. *)
Lemma C4_counterexample : exists ag w',
  web_down seed_P = Err (RequestException "Connection refused") /\
  initialize_with_url web_down 3 (mkAgent None) (mkWorld [] []) seed_P = Some (Ok tt, ag, w') /\
  In "Error crawling https://h.com/docs/p: Connection refused" (log_lines w').
Proof.
  do 2 eexists. split; [reflexivity|]. split; [reflexivity|].
  simpl. right. left. reflexivity.
Qed.

(** ** C5: extraction of the content region *)

Lemma Forall_flat_map_iff : forall {A B} (P : B -> Prop) (f : A -> list B) l,
  Forall P (flat_map f l) <-> Forall (fun x => Forall P (f x)) l.
Proof.
  intros A B P f l. induction l as [|x l IH]; simpl; [split; constructor|].
  rewrite Forall_app, IH. split.
  - intros [H1 H2]. constructor; assumption.
  - intros H. inversion H. split; assumption.
Qed.

Lemma decompose_node_clean : forall n,
  Forall (fun t => is_stripped_tag t = false) (flat_map node_tags (decompose_node n)).
Proof.
  apply node_ind'.
  - intros s. simpl. constructor.
  - intros s. simpl. constructor.
  - intros t a kids IH. cbn [decompose_node].
    destruct (is_stripped_tag t) eqn:Ht; [simpl; constructor|].
    cbn [flat_map node_tags]. rewrite app_nil_r. constructor; [exact Ht|].
    rewrite !Forall_flat_map_iff. rewrite Forall_forall in IH |- *.
    intros k Hk. rewrite <- Forall_flat_map_iff. exact (IH k Hk).
Qed.

Lemma decompose_stripped_clean : forall doc,
  Forall (fun t => is_stripped_tag t = false) (flat_map node_tags (decompose_stripped doc)).
Proof.
  intros doc. unfold decompose_stripped. induction doc as [|n r IH]; simpl; [constructor|].
  rewrite flat_map_app. apply Forall_app. split; [apply decompose_node_clean | exact IH].
Qed.

Lemma extract_content_soup : forall doc u, fst (extract_content doc u) = decompose_stripped doc.
Proof.
  intros doc u. unfold extract_content.
  destruct (match select_one is_content_region (decompose_stripped doc) with
            | Some m => Some m
            | None => select_one (has_tag "body") (decompose_stripped doc)
            end); reflexivity.
Qed.

(** C5 (amended).  If, once the [nav], [header], [footer], [script] and
    [style] elements are removed, the first element in document order that
    matches [main], [article], [.content] or [.documentation] is a [main]
    whose non-empty stripped strings are "A" and "B", the record's body is
    "A B".  No removed element is left in the tree the text is read from. *)
Theorem C5_extraction_of_main : forall doc u a kids,
  select_one is_content_region (decompose_stripped doc) = Some (Elem "main" a kids) ->
  stripped_strings kids = ["A"; "B"] ->
  (exists t, snd (extract_content doc u) = Some (mkChunk "A B" u t)) /\
  Forall (fun t => is_stripped_tag t = false) (flat_map node_tags (fst (extract_content doc u))).
Proof.
  intros doc u a kids Hsel Hstr. split.
  - unfold extract_content. rewrite Hsel. simpl. rewrite Hstr.
    eexists. reflexivity.
  - rewrite extract_content_soup. apply decompose_stripped_clean.
Qed.

Lemma C5_witness :
  select_one is_content_region (decompose_stripped page_scenario_P)
    = Some (Elem "main" [] [Text " A "; Elem "b" [] [Text "B"]; Elem "a" [("href", "/docs/q")] []]) /\
  exists t, snd (extract_content page_scenario_P seed_P) = Some (mkChunk "A B" seed_P t).
Proof.
  split; [reflexivity|].
  apply (C5_extraction_of_main page_scenario_P seed_P []
           [Text " A "; Elem "b" [] [Text "B"]; Elem "a" [("href", "/docs/q")] []]).
  - reflexivity.
  - reflexivity.
Defined.

(** C5 as stated fails: the page has every stripped element and a [main]
    whose text nodes are "A" and "B", but an [article] earlier in the page
    is taken as the content region. *)
Lemma C5_counterexample :
  forallb (fun t => has_element t page_article_first)
    ["nav"; "header"; "footer"; "script"; "style"; "main"] = true /\
  select_one (has_tag "main") page_article_first
    = Some (Elem "main" [] [Text "A"; Elem "em" [] [Text "B"]]) /\
  stripped_strings [Text "A"; Elem "em" [] [Text "B"]] = ["A"; "B"] /\
  snd (extract_content page_article_first seed_P) = Some (mkChunk "Intro" seed_P (Some "Guide")).
Proof. repeat split; reflexivity. Qed.

(** ** C6: the record's title *)

(** C6 fails by a slip: an empty [title] element gives [None] (Python's
    [None]) as the title of the record, neither its text [""] nor the URL,
    although [DocumentChunk.title] is declared [str]. *)
Theorem C6_empty_title_gives_None :
  select_one (has_tag "title") page_empty_title = Some (Elem "title" [] []) /\
  all_strings [Elem "title" [] []] = [] /\
  snd (extract_content page_empty_title seed_P) = Some (mkChunk "x" seed_P None).
Proof. repeat split; reflexivity. Qed.

(** ** C7: empty context and a missing crawl *)

(** C7.  [format_context] gives [""] when there is no processor or no
    record, and [answer_question] before initialisation returns the fixed
    message, changing nothing. *)
Theorem C7_empty_context_and_uninitialized : forall client a w q,
  (processor a = None \/ exists p, processor a = Some p /\ chunks p = []) ->
  format_context a = "" /\
  (processor a = None -> answer_question client a w q = (not_initialized_msg, a, w)).
Proof.
  intros client a w q H. split.
  - unfold format_context. destruct H as [H|[p [Hp Hc]]]; rewrite ?H, ?Hp, ?Hc; reflexivity.
  - intros Hn. unfold answer_question. rewrite Hn. reflexivity.
Qed.

Lemma C7_witness :
  format_context (mkAgent None) = "" /\
  answer_question (fun _ => Ok "unused") (mkAgent None) (mkWorld [] []) "How do I log in?"
    = (not_initialized_msg, mkAgent None, mkWorld [] []).
Proof.
  destruct (C7_empty_context_and_uninitialized (fun _ => Ok "unused") (mkAgent None)
              (mkWorld [] []) "How do I log in?" (or_introl eq_refl)) as [H1 H2].
  split; [exact H1 | exact (H2 eq_refl)].
Defined.

(** ** C8: a failing collaborator *)

(** C8.  When the client raises, [answer_question] returns
    ["Error generating answer: " ++ str(e)], which contains [str(e)], leaves
    the agent (and so its processor's visited set and records) as it was,
    and only adds a log line. *)
Theorem C8_collaborator_failure : forall client a w q p e,
  processor a = Some p ->
  client (build_prompt (format_context a) q) = Err e ->
  answer_question client a w q =
    ("Error generating answer: " ++ str_exn e, a,
     log_line ("Error generating answer: " ++ str_exn e) w) /\
  contains (str_exn e) ("Error generating answer: " ++ str_exn e) = true.
Proof.
  intros client a w q p e Hp Hc. split.
  - unfold answer_question. rewrite Hp, Hc. reflexivity.
  - apply contains_app_r.
Qed.

Lemma C8_witness :
  answer_question (fun _ => Err (APIError "overloaded"))
    (mkAgent (Some (new_processor seed_P))) (mkWorld [] []) "q"
  = ("Error generating answer: overloaded", mkAgent (Some (new_processor seed_P)),
     log_line "Error generating answer: overloaded" (mkWorld [] [])).
Proof.
  exact (proj1 (C8_collaborator_failure (fun _ => Err (APIError "overloaded"))
    (mkAgent (Some (new_processor seed_P))) (mkWorld [] []) "q" (new_processor seed_P)
    (APIError "overloaded") eq_refl eq_refl)).
Defined.

(** ** C9: what enters the visited set *)

Definition visited_inv (st : CState) : Prop :=
  forall v, In v (visited_urls (fst st)) -> is_valid_url (base_url (fst st)) v = true.

Lemma crawl_page_visited_inv : forall web fuel u st st',
  crawl_page web fuel u st = Some st' -> visited_inv st -> visited_inv st'.
Proof.
  intros web. apply (crawl_page_R web (fun s s' => visited_inv s -> visited_inv s')).
  - auto.
  - auto.
  - intros p w m H. exact H.
  - intros p w u _ _ H. exact H.
  - intros p w u resp _ _ Hv Hval H v Hin. rewrite record_page_fst_base.
    revert Hin. unfold record_page, add_visited. rewrite Hv.
    destruct (extract_content (page resp) u) as [soup [c|]]; simpl;
      intros Hin; apply in_app_iff in Hin as [Hin|[<-|[]]];
      first [exact (H v Hin) | exact Hval].
Qed.

(** C9.  Every URL a crawl puts in [visited_urls] parses, has the seed's
    network location and contains none of [.png], [.jpg], [.css], [.js];
    the visited set only grows, and the seed does not change. *)
Theorem C9_visited_admissible : forall web fuel u st st',
  crawl_page web fuel u st = Some st' ->
  (forall v, In v (visited_urls (fst st)) -> is_valid_url (base_url (fst st)) v = true) ->
  (exists l, visited_urls (fst st') = app (visited_urls (fst st)) l) /\
  base_url (fst st') = base_url (fst st) /\
  forall v, In v (visited_urls (fst st')) ->
    exists pv pb, urlparse v = Ok pv /\ urlparse (base_url (fst st')) = Ok pb /\
      netloc pv = netloc pb /\ forall ext, In ext excluded_exts -> contains ext v = false.
Proof.
  intros web fuel u st st' H Hinv.
  destruct (crawl_page_extends web fuel u st st' H) as (_ & _ & Hb & Hv).
  split; [exact Hv|]. split; [exact Hb|].
  intros v Hin. apply is_valid_url_iff.
  exact (crawl_page_visited_inv web fuel u st st' H Hinv v Hin).
Qed.

Lemma C9_witness :
  visited_urls (fst C3_run_result) = [seed_P; "https://h.com/docs/q"] /\
  exists pv pb, urlparse "https://h.com/docs/q" = Ok pv /\
    urlparse (base_url (fst C3_run_result)) = Ok pb /\ netloc pv = netloc pb /\
    forall ext, In ext excluded_exts -> contains ext "https://h.com/docs/q" = false.
Proof.
  split; [reflexivity|].
  apply (proj2 (proj2 (C9_visited_admissible web_scenario 10 seed_P (fresh seed_P) C3_run_result
           eq_refl (fun v (H : In v []) => match H with end)))).
  vm_compute. right. left. reflexivity.
Defined.

(** ** C10: malformed links *)

(** C10 fails by a slip.  [is_valid_url] guards [urlparse] with a
    [try]/[except] and answers [false] for a URL it cannot parse, but in
    [crawl_page] the discovered [href] first goes through [urljoin], which
    raises on the same input outside any per-link guard.  On the page
    [seed_P], whose first link is ["http://[bad/"] and whose second is the
    valid, reachable ["/docs/q"], the error reaches the page's [except]:
    it is logged and ["/docs/q"] is never fetched, whereas a link whose
    own fetch fails is isolated by the child's [except] and the loop goes
    on. *)
Theorem C10_malformed_link_aborts_page :
  urlparse "http://[bad/" = Err (ValueError "Invalid IPv6 URL") /\
  is_valid_url seed_P "http://[bad/" = false /\
  urljoin seed_P "http://[bad/" = Err (ValueError "Invalid IPv6 URL") /\
  is_valid_url seed_P "https://h.com/docs/q" = true /\
  web_bad_link "https://h.com/docs/q" = Ok (mkResponse 200 page_scenario_Q) /\
  (exists st',
     process_documentation web_bad_link 5 (fresh seed_P) = Some st' /\
     requests_made (snd st') = [(seed_P, true)] /\
     log_lines (snd st') = ["Error crawling https://h.com/docs/p: Invalid IPv6 URL"]).
Proof. repeat split; try reflexivity. eexists. repeat split; reflexivity. Qed.

(** * Further properties of the code *)

(** ** The crawl *)

(** A seed that fails its own filter (say it contains ".js" or ".css"
    anywhere) is not crawled at all: no request, no record. *)
Theorem process_documentation_invalid_seed : forall web fuel seed,
  is_valid_url seed seed = false ->
  process_documentation web (S fuel) (fresh seed) = Some (fresh seed).
Proof.
  intros web fuel seed H. unfold process_documentation, fresh, mem. cbn [crawl_page fst base_url
    new_processor visited_urls existsb orb]. rewrite H. reflexivity.
Qed.

Lemma process_documentation_invalid_seed_witness :
  process_documentation web_scenario 4 (fresh seed_json) = Some (fresh seed_json).
Proof. apply process_documentation_invalid_seed. reflexivity. Defined.

Definition requests_inv (st : CState) : Prop :=
  forall v ok, In (v, ok) (requests_made (snd st)) -> is_valid_url (base_url (fst st)) v = true.

Lemma crawl_page_requests_inv : forall web fuel u st st',
  crawl_page web fuel u st = Some st' -> requests_inv st -> requests_inv st'.
Proof.
  intros web. apply (crawl_page_R web (fun s s' => requests_inv s -> requests_inv s')).
  - auto.
  - auto.
  - intros p w m H. exact H.
  - intros p w u _ Hval H v ok Hin. simpl in Hin. apply in_app_iff in Hin as [Hin|[E|[]]].
    + exact (H v ok Hin).
    + injection E as <- _. exact Hval.
  - intros p w u resp _ _ _ Hval H v ok. rewrite record_page_fst_base.
    unfold record_page. destruct (extract_content (page resp) u) as [soup [c|]]; simpl;
      intros Hin; apply in_app_iff in Hin as [Hin|[E|[]]];
      first [exact (H v ok Hin) | injection E as <- _; exact Hval].
Qed.

(** Every HTTP GET a crawl run issues, failed or not, is for a URL that
    passes [is_valid_url] for the seed. *)
Theorem crawl_requests_admissible : forall web fuel seed st',
  process_documentation web fuel (fresh seed) = Some st' ->
  forall v ok, In (v, ok) (requests_made (snd st')) -> is_valid_url seed v = true.
Proof.
  intros web fuel seed st' H v ok Hin.
  destruct (crawl_page_extends web fuel seed (fresh seed) st' H) as (_ & _ & Hb & _).
  simpl in Hb. rewrite <- Hb.
  refine (crawl_page_requests_inv web fuel seed (fresh seed) st' H _ v ok Hin).
  intros v0 ok0 [].
Qed.

Lemma crawl_requests_admissible_witness :
  In ("https://h.com/docs/gone", false) (requests_made (snd C2_run_result)) /\
  is_valid_url seed_P "https://h.com/docs/gone" = true.
Proof.
  split; [vm_compute; right; left; reflexivity|].
  exact (crawl_requests_admissible web_gone 5 seed_P C2_run_result eq_refl
           "https://h.com/docs/gone" false ltac:(vm_compute; right; left; reflexivity)).
Defined.

Definition chunks_inv (st : CState) : Prop :=
  NoDup (map url (chunks (fst st))) /\ incl (map url (chunks (fst st))) (visited_urls (fst st)).

Lemma crawl_page_chunks_inv : forall web fuel u st st',
  crawl_page web fuel u st = Some st' -> chunks_inv st -> chunks_inv st'.
Proof.
  intros web. apply (crawl_page_R web (fun s s' => chunks_inv s -> chunks_inv s')).
  - auto.
  - auto.
  - intros p w m H. exact H.
  - intros p w u _ _ H. exact H.
  - intros p w u resp _ _ Hv _ [Hnd Hincl]. cbn [fst] in Hnd, Hincl.
    unfold record_page, add_visited. rewrite Hv. apply mem_false_not_In in Hv.
    destruct (extract_content (page resp) u) as [soup [c|]] eqn:He; unfold chunks_inv; simpl.
    + assert (url c = u) as Hu
        by (apply (extract_content_url (page resp)); rewrite He; reflexivity).
      rewrite map_app. simpl. rewrite Hu. split.
      * apply NoDup_app; [exact Hnd | constructor; [intros []|constructor] |].
        intros x Hx [<-|[]]. exact (Hv (Hincl _ Hx)).
      * intros x Hx. apply in_app_iff in Hx as [Hx|[<-|[]]]; apply in_app_iff;
          [left; exact (Hincl _ Hx) | right; left; reflexivity].
    + split; [exact Hnd|]. intros x Hx. apply in_app_iff. left. exact (Hincl _ Hx).
Qed.

(** A crawl run stores at most one record per URL, and only for visited
    URLs. *)
Theorem crawl_one_record_per_url : forall web fuel seed st',
  process_documentation web fuel (fresh seed) = Some st' ->
  NoDup (map url (chunks (fst st'))) /\ incl (map url (chunks (fst st'))) (visited_urls (fst st')).
Proof.
  intros web fuel seed st' H.
  apply (crawl_page_chunks_inv web fuel seed (fresh seed) st' H).
  split; [constructor | intros x []].
Qed.

Lemma crawl_one_record_per_url_witness :
  map url (chunks (fst C3_run_result)) = [seed_P; "https://h.com/docs/q"] /\
  NoDup (map url (chunks (fst C3_run_result))).
Proof.
  split; [reflexivity|].
  exact (proj1 (crawl_one_record_per_url web_scenario 10 seed_P C3_run_result eq_refl)).
Defined.




(** ** Substrings *)

Lemma string_app_assoc : forall a b c : string, (a ++ b) ++ c = a ++ (b ++ c).
Proof. induction a as [|x a IH]; intros b c; simpl; [reflexivity|]. rewrite IH. reflexivity. Qed.

Lemma string_app_nil_r : forall a : string, a ++ "" = a.
Proof. induction a as [|x a IH]; simpl; [reflexivity|]. rewrite IH. reflexivity. Qed.

Lemma prefix_iff : forall a b, String.prefix a b = true <-> exists post, b = a ++ post.
Proof.
  induction a as [|x a IH]; intros b; simpl.
  - split; [intros _; exists b; reflexivity | intros _; destruct b; reflexivity].
  - destruct b as [|y b]; simpl.
    + split; [discriminate | intros [post E]; discriminate].
    + destruct (ascii_dec x y) as [<-|n]; cbv iota.
      * rewrite IH. split; intros [post E]; exists post; [rewrite E | injection E as E]; auto.
      * split; [discriminate|]. intros [post E]. injection E as E _. congruence.
Qed.

Lemma contains_iff : forall a b, contains a b = true <-> exists pre post, b = pre ++ a ++ post.
Proof.
  intros a. induction b as [|y b IH]; cbn [contains].
  - rewrite orb_false_r, prefix_iff. split.
    + intros [post E]. exists "", post. exact E.
    + intros [pre [post E]]. destruct pre; [|discriminate]. exists post. exact E.
  - rewrite orb_true_iff, prefix_iff, IH. split.
    + intros [[post E]|[pre [post E]]].
      * exists "", post. exact E.
      * exists (String y pre), post. simpl. rewrite E. reflexivity.
    + intros [pre [post E]]. destruct pre as [|z pre].
      * left. exists post. exact E.
      * right. injection E as -> E. exists pre, post. exact E.
Qed.

Lemma contains_app_l : forall a pre b, contains a b = true -> contains a (pre ++ b) = true.
Proof.
  intros a pre b H. apply contains_iff in H as [p [q E]]. apply contains_iff.
  exists (pre ++ p), q. rewrite E, string_app_assoc. reflexivity.
Qed.

Lemma contains_here : forall a post, contains a (a ++ post) = true.
Proof. intros a post. apply contains_iff. exists "", post. reflexivity. Qed.

Lemma contains_trans : forall a b c, contains a b = true -> contains b c = true -> contains a c = true.
Proof.
  intros a b c H1 H2. apply contains_iff in H1 as [p1 [q1 E1]].
  apply contains_iff in H2 as [p2 [q2 E2]]. apply contains_iff.
  exists (p2 ++ p1), (q1 ++ q2). rewrite E2, E1, !string_app_assoc. reflexivity.
Qed.

Lemma contains_concat_all : forall x xs, In x xs -> contains x (concat_all xs) = true.
Proof.
  intros x xs. induction xs as [|y xs IH]; simpl; [intros []|].
  intros [<-|H]; [apply contains_here | apply contains_app_l; exact (IH H)].
Qed.

Ltac find_substring :=
  repeat first [ apply contains_here | apply contains_app_l ].

(** ** [extract_content] *)

(** [extract_content] gives no record exactly when, after the removals,
    neither a content region nor a [body] is found.  A record's title is
    the URL when there is no [title] element, and the text of a [title]
    element holding a single string. *)
Theorem extract_content_region_and_title : forall doc u,
  (snd (extract_content doc u) = None <->
     select_one is_content_region (decompose_stripped doc) = None /\
     select_one (has_tag "body") (decompose_stripped doc) = None) /\
  (forall c, snd (extract_content doc u) = Some c ->
     (select_one (has_tag "title") (decompose_stripped doc) = None -> title c = Some u) /\
     (forall a s, select_one (has_tag "title") (decompose_stripped doc)
                    = Some (Elem "title" a [Text s]) -> title c = Some s)).
Proof.
  intros doc u. unfold extract_content.
  assert (forall m, (forall c, snd (decompose_stripped doc,
            Some (mkChunk (join_space (stripped_strings (children_of m))) u
              match select_one (has_tag "title") (decompose_stripped doc) with
              | Some t => tag_string t
              | None => Some u
              end)) = Some c ->
     (select_one (has_tag "title") (decompose_stripped doc) = None -> title c = Some u) /\
     (forall a s, select_one (has_tag "title") (decompose_stripped doc)
                    = Some (Elem "title" a [Text s]) -> title c = Some s))) as Htitle.
  { intros m c Hc. injection Hc as <-. simpl.
    split; [intros Ht; rewrite Ht; reflexivity | intros a s Ht; rewrite Ht; reflexivity]. }
  destruct (select_one is_content_region (decompose_stripped doc)) as [m|] eqn:Hm.
  - split; [|apply Htitle]. split; [discriminate | intros [H1 _]; discriminate].
  - destruct (select_one (has_tag "body") (decompose_stripped doc)) as [m|] eqn:Hb.
    + split; [|apply Htitle]. split; [discriminate | intros [_ H2]; discriminate].
    + split; [split; auto|]. intros c Hc. discriminate.
Qed.

Lemma extract_content_region_and_title_witness :
  select_one (has_tag "title") (decompose_stripped page_scenario_P)
    = Some (Elem "title" [] [Text "Page P"]) /\
  title (mkChunk "A B" seed_P (Some "Page P")) = Some "Page P".
Proof.
  split; [reflexivity|].
  exact (proj2 (proj2 (extract_content_region_and_title page_scenario_P seed_P)
    (mkChunk "A B" seed_P (Some "Page P")) eq_refl) [] "Page P" eq_refl).
Defined.

(** ** [format_context] and [answer_question] *)

Lemma fold_left_format : forall cs acc,
  fold_left (fun acc c => acc ++ format_chunk c) cs acc = acc ++ concat_all (map format_chunk cs).
Proof.
  induction cs as [|c cs IH]; intros acc; simpl.
  - rewrite string_app_nil_r. reflexivity.
  - rewrite IH, string_app_assoc. reflexivity.
Qed.

(** With records, the context is the fixed preamble followed by one block
    per record, in the order the records were collected; each record's
    source URL, title and body appear in it. *)
Theorem format_context_records : forall a p,
  processor a = Some p -> chunks p <> [] ->
  format_context a = "Here is the relevant documentation:" ++ nl ++ nl ++
                     concat_all (map format_chunk (chunks p)) /\
  forall c, In c (chunks p) ->
    contains ("Source: " ++ url c ++ nl ++ "Title: " ++ py_str_opt (title c) ++ nl ++
              "Content: " ++ content c) (format_context a) = true.
Proof.
  intros a p Hp Hne.
  assert (format_context a = "Here is the relevant documentation:" ++ nl ++ nl ++
                             concat_all (map format_chunk (chunks p))) as E.
  { unfold format_context. rewrite Hp. destruct (chunks p) as [|c0 cs]; [contradiction|].
    rewrite fold_left_format. reflexivity. }
  split; [exact E|]. intros c Hc. rewrite E.
  apply contains_app_l, contains_app_l, contains_app_l.
  apply contains_trans with (format_chunk c).
  - replace (format_chunk c) with
      (("Source: " ++ url c ++ nl ++ "Title: " ++ py_str_opt (title c) ++ nl ++
        "Content: " ++ content c) ++ nl ++ nl)
      by (unfold format_chunk; rewrite !string_app_assoc; reflexivity).
    apply contains_here.
  - apply contains_concat_all. apply in_map. exact Hc.
Qed.

Lemma format_context_records_witness :
  processor (mkAgent (Some (fst C3_run_result))) = Some (fst C3_run_result) /\
  contains ("Source: " ++ seed_P ++ nl ++ "Title: Page P" ++ nl ++ "Content: A B")
    (format_context (mkAgent (Some (fst C3_run_result)))) = true.
Proof.
  split; [reflexivity|].
  exact (proj2 (format_context_records (mkAgent (Some (fst C3_run_result))) (fst C3_run_result)
           eq_refl ltac:(vm_compute; discriminate)) (mkChunk "A B" seed_P (Some "Page P"))
           ltac:(vm_compute; left; reflexivity)).
Defined.

(** An initialised agent sends one prompt holding the formatted context and
    the question, and returns the client's text unchanged, leaving the
    agent and the log as they were. *)
Theorem answer_question_success : forall client a w q p text,
  processor a = Some p ->
  client (build_prompt (format_context a) q) = Ok text ->
  answer_question client a w q = (text, a, w) /\
  contains q (build_prompt (format_context a) q) = true /\
  contains (format_context a) (build_prompt (format_context a) q) = true.
Proof.
  intros client a w q p text Hp Hc. split; [|split].
  - unfold answer_question. rewrite Hp, Hc. reflexivity.
  - unfold build_prompt. find_substring.
  - unfold build_prompt. find_substring.
Qed.

Lemma answer_question_success_witness :
  answer_question (fun _ => Ok "See /docs/q.") (mkAgent (Some (new_processor seed_P)))
    (mkWorld [] []) "Where?"
  = ("See /docs/q.", mkAgent (Some (new_processor seed_P)), mkWorld [] []).
Proof.
  exact (proj1 (answer_question_success (fun _ => Ok "See /docs/q.")
    (mkAgent (Some (new_processor seed_P))) (mkWorld [] []) "Where?" (new_processor seed_P)
    "See /docs/q." eq_refl eq_refl)).
Defined.

(** ** [initialize_with_url] *)

(** Initialisation discards any earlier processor: the agent ends with the
    processor of a crawl started from a fresh one for the given URL, and
    the last log line counts that crawl's records. *)
Theorem initialize_with_url_fresh_crawl : forall web fuel a w u r,
  initialize_with_url web fuel a w u = Some r ->
  exists p' w',
    process_documentation web fuel (new_processor u, log_line (start_msg u) w) = Some (p', w') /\
    r = (Ok tt, mkAgent (Some p'),
         log_line ("Processed " ++ nat_to_string (length (chunks p')) ++ " documentation chunks") w') /\
    base_url p' = u.
Proof.
  intros web fuel a w u r H. unfold initialize_with_url in H.
  destruct (process_documentation web fuel (new_processor u, _)) as [[p' w']|] eqn:E;
    [|discriminate].
  injection H as <-. exists p', w'. split; [first [exact E | reflexivity]|]. split; [reflexivity|].
  destruct (crawl_page_extends web fuel u _ _ E) as (_ & _ & Hb & _). exact Hb.
Qed.

(** After initialisation, whatever the crawl collected, a question goes to
    the client: the answer is the client's text or the error it raised,
    never the not-initialised message. *)
Theorem answer_after_initialize : forall web fuel a w u r client w2 q,
  initialize_with_url web fuel a w u = Some r ->
  fst (fst (answer_question client (snd (fst r)) w2 q)) =
    match client (build_prompt (format_context (snd (fst r))) q) with
    | Ok text => text
    | Err e => "Error generating answer: " ++ str_exn e
    end.
Proof.
  intros web fuel a w u r client w2 q H. unfold initialize_with_url in H.
  destruct (process_documentation web fuel (new_processor u, _)) as [[p' w']|];
    [|discriminate].
  injection H as <-. simpl. unfold answer_question. simpl.
  destruct (client _); reflexivity.
Qed.

Lemma initialize_with_url_fresh_crawl_witness :
  exists r, initialize_with_url web_down 3 (mkAgent (Some (fst C3_run_result))) (mkWorld [] []) seed_P
              = Some r /\
    processor (snd (fst r)) = Some (new_processor seed_P).
Proof.
  eexists. split; [reflexivity|].
  destruct (initialize_with_url_fresh_crawl web_down 3 (mkAgent (Some (fst C3_run_result)))
              (mkWorld [] []) seed_P _ eq_refl) as (p' & w' & Hp & Er & _).
  rewrite Er. simpl. vm_compute in Hp. injection Hp as <- _. reflexivity.
Defined.

Lemma answer_after_initialize_witness :
  exists r, initialize_with_url web_down 3 (mkAgent None) (mkWorld [] []) seed_P = Some r /\
    fst (fst (answer_question (fun _ => Ok "No documentation found.") (snd (fst r))
                (mkWorld [] []) "Where?")) = "No documentation found.".
Proof.
  eexists. split; [reflexivity|].
  rewrite (answer_after_initialize web_down 3 (mkAgent None) (mkWorld [] []) seed_P _
             (fun _ => Ok "No documentation found.") (mkWorld [] []) "Where?" eq_refl).
  reflexivity.
Defined.

(** ** The question loop of [main] *)

Lemma answer_question_shape : forall client a w q,
  exists w', answer_question client a w q = (answer_text client a q, a, w').
Proof.
  intros client a w q. unfold answer_text, answer_question.
  destruct (processor a); [destruct (client _)|]; eexists; reflexivity.
Qed.

(** Without a [quit] line, the loop answers every line in order and ends
    when standard input runs out, printing the [EOFError]. *)
Theorem qa_loop_until_eof : forall client a w inputs out,
  Forall (fun x => lower x <> "quit") inputs ->
  fst (qa_loop client a w inputs out) =
    app out (app (flat_map (question_block client a) inputs) [input_prompt; eof_error_line]).
Proof.
  intros client a w inputs. revert w.
  induction inputs as [|x xs IH]; intros w out H; simpl; [reflexivity|].
  inversion H as [|? ? Hx Hxs]; subst.
  destruct (String.eqb (lower x) "quit") eqn:Eq; [apply String.eqb_eq in Eq; contradiction|].
  destruct (answer_question_shape client a w x) as [w' Ea]. rewrite Ea.
  rewrite IH by exact Hxs. rewrite <- !app_assoc. reflexivity.
Qed.

Lemma qa_loop_until_eof_witness :
  fst (qa_loop (fun _ => Ok "ok") (mkAgent (Some (new_processor seed_P))) (mkWorld [] [])
         ["How?"] [])
  = [input_prompt; answer_line "ok"; input_prompt; eof_error_line].
Proof.
  rewrite (qa_loop_until_eof (fun _ => Ok "ok") (mkAgent (Some (new_processor seed_P)))
             (mkWorld [] []) ["How?"] []); [reflexivity|].
  constructor; [discriminate | constructor].
Defined.

(** The loop stops at the first line that is "quit" in any letter case:
    the lines before it are answered in order, the lines after it are
    never read. *)
Theorem qa_loop_stops_at_quit : forall client a w pre q post out,
  Forall (fun x => lower x <> "quit") pre -> lower q = "quit" ->
  fst (qa_loop client a w (app pre (q :: post)) out) =
    app out (app (flat_map (question_block client a) pre) [input_prompt]).
Proof.
  intros client a w pre. revert w.
  induction pre as [|x xs IH]; intros w q post out Hpre Hq; simpl.
  - rewrite Hq. reflexivity.
  - inversion Hpre as [|? ? Hx Hxs]; subst.
    destruct (String.eqb (lower x) "quit") eqn:Eq; [apply String.eqb_eq in Eq; contradiction|].
    destruct (answer_question_shape client a w x) as [w' Ea]. rewrite Ea.
    rewrite (IH w' q post _ Hxs Hq). rewrite <- !app_assoc. reflexivity.
Qed.

Lemma qa_loop_stops_at_quit_witness :
  fst (qa_loop (fun _ => Ok "ok") (mkAgent (Some (new_processor seed_P))) (mkWorld [] [])
         ["How?"; "QUIT"; "unread"] [])
  = [input_prompt; answer_line "ok"; input_prompt].
Proof.
  change ["How?"; "QUIT"; "unread"] with (app ["How?"] ("QUIT" :: ["unread"])).
  rewrite (qa_loop_stops_at_quit (fun _ => Ok "ok") (mkAgent (Some (new_processor seed_P)))
             (mkWorld [] []) ["How?"] "QUIT" ["unread"] []).
  - reflexivity.
  - constructor; [discriminate | constructor].
  - reflexivity.
Defined.

(** ** [main] *)


